(** * Movie catalog service: a shallow embedding of [app/models.py] and
      [app/app.py], and the properties of its four endpoints.

    The service is CRUD glue over the [sqlite3] driver and a web framework.
    The embedding therefore has three layers:

    - [sqlite3]: the part of the driver the program uses: a database file
      with the two tables of the schema, connections with their pending
      transaction, and the six SQL statements of the source;
    - [models]: the five functions of [models.py], written in the state and
      exception monad of the driver;
    - [app]: the four handlers of [app.py] and the routing layer that
      validates a request, calls the handler and builds the response.

    Scope of the driver model.  Values are typed by the columns that hold
    them: INTEGER is [Z], TEXT is [string], REAL is a binary64 [float] that
    is stored and returned untouched.  The conversions the driver performs
    at its boundary (the signed 64-bit range of a bound integer, the
    encoding of text) are outside the model, and so is the interleaving of
    concurrent requests: statements of one operation run in sequence. *)

From Stdlib Require Import ZArith Lia.
From Stdlib Require Import Floats.PrimFloat.
From stdpp Require Import base option list strings gmap sorting.

Open Scope Z_scope.

(** ** Python: exceptions and outcomes *)

Module py.

Inductive exn :=
| OperationalError (msg : string)
| ProgrammingError (msg : string)
| HTTPException (status_code : Z) (detail : string).

Inductive outcome (A : Type) :=
| Return (a : A)
| Raise (e : exn).
Arguments Return {A} a.
Arguments Raise {A} e.

End py.
Import py.

(** ** The sqlite3 driver, restricted to what the program uses *)

Module sqlite3.

(** Rows, in column order: [movies(id, title, genre)] and
    [reviews(id, movie_id, rating, comment)]. *)
Definition movie_row : Type := Z * string * string.
Definition review_row : Type := Z * Z * float * string.

(** The file [test.db].  A table that was never created is [None]; the
    rows of a table are kept in scan order (ascending rowid). *)
Record database := Database {
  movies : option (list movie_row);
  reviews : option (list review_row) }.

(** A connection object: whether [close] was called on it, and the
    uncommitted copy of the database when a transaction is open. *)
Record Connection := Conn {
  closed : bool;
  in_transaction : option database }.

(** What persists across calls: the committed file, every connection
    object ever created (a handle is its index), and the values that the
    SQL function RANDOM() is still to produce. *)
Record world := World {
  disk : database;
  connections : list Connection;
  entropy : nat → Z }.

Definition M (A : Type) : Type := world → outcome A * world.

#[global] Instance M_ret : MRet M := λ A a w, (Return a, w).
#[global] Instance M_bind : MBind M := λ A B k m w,
  match m w with
  | (Return a, w') => k a w'
  | (Raise e, w') => (Raise e, w')
  end.
Definition raise {A} (e : exn) : M A := λ w, (Raise e, w).

Definition movie_id_of (r : movie_row) : Z := r.1.1.
Definition review_id_of (r : review_row) : Z := r.1.1.1.



(** [sqlite3.connect('test.db')]: a fresh connection object, open, with
    no transaction. *)
Definition connect : M nat := λ w,
  (Return (length (connections w)),
   World (disk w) (connections w ++ [Conn false None]) (entropy w)).

(** Every method of a connection first checks that it is still open. *)
Definition the_connection (conn : nat) : M Connection := λ w,
  match connections w !! conn with
  | Some c =>
      if closed c
      then (Raise (ProgrammingError "Cannot operate on a closed database."), w)
      else (Return c, w)
  | None => (Raise (ProgrammingError "no such connection"), w)
  end.

Definition set_connection (conn : nat) (c : Connection) : M unit := λ w,
  (Return (), World (disk w) (<[conn := c]> (connections w)) (entropy w)).

Definition set_disk (d : database) : M unit := λ w,
  (Return (), World d (connections w) (entropy w)).

(** The database as a connection sees it: its own uncommitted copy when
    it has one, the committed file otherwise. *)
Definition snapshot (conn : nat) : M database :=
  c ← the_connection conn;
  match in_transaction c with
  | Some d => mret d
  | None => λ w, (Return (disk w), w)
  end.

Definition commit (conn : nat) : M unit :=
  c ← the_connection conn;
  match in_transaction c with
  | Some d => set_disk d;; set_connection conn (Conn (closed c) None)
  | None => mret ()
  end.

Definition rollback (conn : nat) : M unit :=
  c ← the_connection conn;
  match in_transaction c with
  | Some _ => set_connection conn (Conn (closed c) None)
  | None => mret ()
  end.

(** [close] discards an open transaction.  No function of the program
    calls it. *)
Definition close (conn : nat) : M unit := λ w,
  match connections w !! conn with
  | Some c => set_connection conn (Conn true None) w
  | None => (Return (), w)
  end.

(** [with conn: body].  The context manager of a connection commits when
    the body returns and rolls back when it raises, and lets the
    exception through; it does not close the connection. *)
Definition with_ {A} (conn : nat) (body : M A) : M A := λ w,
  match body w with
  | (Return a, w') => (commit conn;; mret a) w'
  | (Raise e, w') => (rollback conn;; raise e) w'
  end.

(** A data definition statement runs in autocommit mode unless a
    transaction is already open. *)
Definition execute_ddl (conn : nat) (f : database → database) : M unit :=
  c ← the_connection conn;
  match in_transaction c with
  | Some d => set_connection conn (Conn (closed c) (Some (f d)))
  | None => λ w, set_disk (f (disk w)) w
  end.

(** An INSERT opens a transaction when none is open and changes the
    connection's copy only. *)
Definition execute_dml (conn : nat) (f : database → outcome database) : M unit :=
  d ← snapshot conn;
  c ← the_connection conn;
  match f d with
  | Return d' => set_connection conn (Conn (closed c) (Some d'))
  | Raise e => raise e
  end.

(** [CREATE TABLE IF NOT EXISTS movies (...)] *)
Definition create_movies (d : database) : database :=
  match movies d with
  | Some _ => d
  | None => Database (Some []) (reviews d)
  end.

(** [CREATE TABLE IF NOT EXISTS reviews (...)] *)
Definition create_reviews (d : database) : database :=
  match reviews d with
  | Some _ => d
  | None => Database (movies d) (Some [])
  end.

Definition no_movies : exn := OperationalError "no such table: movies".
Definition no_reviews : exn := OperationalError "no such table: reviews".

(** The rows of [movies] in scan order, the source of every SELECT of
    the program. *)
Definition from_movies (conn : nat) : M (list movie_row) :=
  d ← snapshot conn;
  match movies d with
  | Some rows => mret rows
  | None => raise no_movies
  end.

(** [LIMIT ? OFFSET ?]: a negative offset is no offset; a negative limit
    is no limit. *)
Definition limit_offset {R} (limit offset : Z) (rows : list R) : list R :=
  let rest := if offset <? 0 then rows else drop (Z.to_nat offset) rows in
  if limit <? 0 then rest else take (Z.to_nat limit) rest.

(** [SELECT * FROM movies LIMIT ? OFFSET ?] *)
Definition select_movies_limit_offset (conn : nat) (limit offset : Z)
  : M (list movie_row) :=
  rows ← from_movies conn;
  mret (limit_offset limit offset rows).

(** [SELECT * FROM movies WHERE id = ?] *)
Definition select_movie_where_id (conn : nat) (i : Z) : M (list movie_row) :=
  rows ← from_movies conn;
  mret (filter (λ r, movie_id_of r = i) rows).

(** The rowid given to a row inserted without one: 1 in an empty table,
    one more than the largest rowid otherwise. *)
Definition next_rowid (rows : list review_row) : Z :=
  match rows with
  | [] => 1
  | r :: rest => 1 + foldr Z.max (review_id_of r) (review_id_of <$> rest)
  end.

(** [INSERT INTO reviews (movie_id, rating, comment) VALUES (?, ?, ?)].
    The schema declares a foreign key, but the program never turns
    [PRAGMA foreign_keys] on, so the reference is not checked. *)
Definition insert_review (values : Z * float * string) (d : database)
  : outcome database :=
  match reviews d with
  | Some rows =>
      let '(movie_id, rating, comment) := values in
      Return (Database (movies d)
                (Some (rows ++ [(next_rowid rows, movie_id, rating, comment)])))
  | None => Raise no_reviews
  end.

(** RANDOM(): the next value of the generator. *)
Definition random : M Z := λ w,
  (Return (entropy w 0%nat),
   World (disk w) (connections w) (λ n, entropy w (S n))).

(** One RANDOM() value per row. *)
Fixpoint with_random_key {R} (rows : list R) : M (list (Z * R)) :=
  match rows with
  | [] => mret []
  | r :: rest =>
      k ← random;
      keyed ← with_random_key rest;
      mret ((k, r) :: keyed)
  end.

Definition key_le {R} (a b : Z * R) : Prop := a.1 ≤ b.1.
#[global] Instance key_le_dec {R} (a b : Z * R) : Decision (key_le a b).
Proof. unfold key_le. apply _. Defined.

(** [SELECT * FROM movies ORDER BY RANDOM() LIMIT 5] *)
Definition select_movies_order_by_random_limit_5 (conn : nat)
  : M (list movie_row) :=
  rows ← from_movies conn;
  keyed ← with_random_key rows;
  mret (limit_offset 5 0 (snd <$> merge_sort key_le keyed)).

(** A cursor holds the rows of its result. *)
Definition fetchall {R} (cursor : list R) : list R := cursor.
Definition fetchone {R} (cursor : list R) : option R := head cursor.

End sqlite3.

(** ** models.py *)

Module models.
Import sqlite3.

Record Movie := { id : Z; title : string; genre : string }.

Record Review := { movie_id : Z; rating : float; comment : string }.

(** The constructor call of [Movie] on a row, keyword-unpacked: each
    column of the row is bound to the field of the same name. *)
Definition Movie_of_row (row : movie_row) : Movie :=
  let '(i, t, g) := row in {| id := i; title := t; genre := g |}.

(** The row factory that the source sets on the connection makes the
    columns of a row addressable by name; [Movie_of_row] relies on it. *)
Definition get_db_connection : M nat := connect.

(** Runs once, when the module is imported, before any request. *)

Definition init_db : M unit :=
  conn ← get_db_connection;
  with_ conn (
    execute_ddl conn create_movies;;
    execute_ddl conn create_reviews).

Definition get_movies (page limit : Z) : M (list Movie) :=
  let offset := (page - 1) * limit in
  conn ← get_db_connection;
  with_ conn (
    cursor ← select_movies_limit_offset conn limit offset;
    mret (Movie_of_row <$> fetchall cursor)).

Definition get_movie (i : Z) : M (option Movie) :=
  conn ← get_db_connection;
  with_ conn (
    cursor ← select_movie_where_id conn i;
    let row := fetchone cursor in
    mret (Movie_of_row <$> row)).

Definition create_review (review : Review) : M Review :=
  conn ← get_db_connection;
  with_ conn (
    execute_dml conn
      (insert_review (movie_id review, rating review, comment review));;
    commit conn;;
    mret review).

Definition get_recommendations : M (list Movie) :=
  conn ← get_db_connection;
  with_ conn (
    cursor ← select_movies_order_by_random_limit_5 conn;
    mret (Movie_of_row <$> fetchall cursor)).

End models.

(** ** The web framework: request bodies, validation, responses *)

Module fastapi.

(** A decoded JSON document. *)
#[warnings="-register-all"]
Inductive json :=
| JNull
| JBool (b : bool)
| JInt (n : Z)
| JFloat (x : float)
| JStr (s : string)
| JList (items : list json)
| JDict (fields : gmap string json).

(** The validators of the three field types of the program.  Which JSON
    values each of them accepts or converts is the validation library's
    business; the program only names the types. *)
Class FieldTypes := {
  as_int : json → option Z;
  as_float : json → option float;
  as_str : json → option string }.

(** Validators that accept a value of exactly the declared JSON type. *)
Definition exact_types : FieldTypes := {|
  as_int v := match v with JInt n => Some n | _ => None end;
  as_float v := match v with JFloat x => Some x | _ => None end;
  as_str v := match v with JStr s => Some s | _ => None end |}.

(** A required field of a request body: [None] when the body is not an
    object or has no such member, or when the member fails the
    validator. *)
Definition required {A} (validator : json → option A) (name : string)
    (body : json) : option A :=
  match body with
  | JDict fields => fields !! name ≫= validator
  | _ => None
  end.

Inductive content :=
| MovieList (ms : list models.Movie)
| OneMovie (m : models.Movie)
| OneReview (r : models.Review)
| Detail (msg : string).

Record response := Response { status : Z; body : content }.

(** What the framework answers for the outcome of a handler: 200 with
    the returned value, the status of an [HTTPException], and 500 for
    any other exception. *)
Definition respond {A} (render : A → content) (handler : sqlite3.M A)
  : sqlite3.world → response * sqlite3.world := λ w,
  match handler w with
  | (Return a, w') => (Response 200 (render a), w')
  | (Raise (HTTPException code detail), w') => (Response code (Detail detail), w')
  | (Raise _, w') => (Response 500 (Detail "Internal Server Error"), w')
  end.

(** The answer to a request that fails validation; no handler runs. *)
Definition unprocessable : sqlite3.world → response * sqlite3.world := λ w,
  (Response 422 (Detail "Unprocessable Entity"), w).

End fastapi.

(** ** app.py *)

Module app.
Import sqlite3 models fastapi.

Definition read_movies (page limit : Z) : M (list Movie) :=
  get_movies page limit.

Definition read_movie (i : Z) : M Movie :=
  movie ← get_movie i;
  match movie with
  | None => raise (HTTPException 404 "Movie not found")
  | Some m => mret m
  end.

Definition add_review (review : Review) : M Review :=
  create_review review.

Definition recommendations : M (list Movie) :=
  get_recommendations.

(** The body of POST /reviews against the fields of [Review], all three
    required. *)
Definition validate_Review `{FieldTypes} (body : json) : option Review :=
  m ← required as_int "movie_id" body;
  r ← required as_float "rating" body;
  c ← required as_str "comment" body;
  Some {| movie_id := m; rating := r; comment := c |}.

(** The four routes.  A query parameter that is absent takes the default
    of the handler's signature. *)
Inductive request :=
| GET_movies (page limit : option Z)
| GET_movies_id (i : Z)
| POST_reviews (body : json)
| GET_recommendations.

Definition serve `{FieldTypes} (req : request) : world → response * world :=
  match req with
  | GET_movies page limit =>
      respond MovieList (read_movies (default 1 page) (default 10 limit))
  | GET_movies_id i => respond OneMovie (read_movie i)
  | POST_reviews body =>
      match validate_Review body with
      | Some review => respond OneReview (add_review review)
      | None => unprocessable
      end
  | GET_recommendations => respond MovieList recommendations
  end.

(** A sequence of requests, served one after the other. *)
Fixpoint serve_all `{FieldTypes} (reqs : list request) (w : world) : world :=
  match reqs with
  | [] => w
  | req :: rest => serve_all rest (serve req w).2
  end.

End app.

(** * Vocabulary of the properties *)

Import sqlite3 models fastapi app.

(** The world once an operation has opened its connection and the [with]
    block has ended its transaction: the committed file is the same, and
    the new connection object is in the table, open and idle. *)
Definition opened (w : world) : world :=
  World (disk w) (connections w ++ [Conn false None]) (entropy w).

(** The connections that are held: created, and [close] was never called
    on them.  The program has no other way to release one; that the
    interpreter may finalise an unreachable connection object later is not
    part of the model. *)
Definition held (w : world) : list Connection :=
  filter (λ c, closed c = false) (connections w).

(** The states the service runs in: [init_db] has created both tables. *)
Definition ready (d : database) : Prop :=
  is_Some (movies d) ∧ is_Some (reviews d).

(** The full ordered catalog: every row of [movies], in scan order, as a
    [Movie]. *)
Definition catalog (d : database) : list Movie :=
  Movie_of_row <$> default [] (movies d).

(** The keys that [with_random_key] draws, as a function of the generator. *)
Fixpoint keyed_with {R} (e : nat → Z) (rows : list R) : list (Z * R) :=
  match rows with
  | [] => []
  | r :: rest => (e 0%nat, r) :: keyed_with (λ n, e (S n)) rest
  end.

(** The member [name] of a request body, if the body is an object that has
    one. *)
Definition member (name : string) (body : json) : option json :=
  match body with
  | JDict fields => fields !! name
  | _ => None
  end.



(** The row that [create_review] adds to a table that holds [rows]. *)
Definition row_of_review (rows : list review_row) (review : Review) : review_row :=
  (next_rowid rows, movie_id review, rating review, comment review).

(** Whether a request is a POST /reviews. *)
Definition is_POST_reviews (req : request) : bool :=
  match req with
  | POST_reviews _ => true
  | _ => false
  end.

(** A small store used to run the functions on concrete inputs. *)
Definition three_movies : list movie_row :=
  [(1, "Alien", "horror"); (2, "Heat", "crime"); (7, "Up", "animation")].

Definition sample_disk : database := Database (Some three_movies) (Some []).

Definition sample_world : world := World sample_disk [] (λ n, 5 - Z.of_nat n).

Definition sample_review : Review :=
  {| movie_id := 42; rating := 4.5%float; comment := "great" |}.

(** Request bodies: a well-formed one, and one without its rating. *)
Definition sample_body : json :=
  JDict {[ "movie_id" := JInt 42; "rating" := JFloat 4.5%float;
           "comment" := JStr "great" ]}.


(** A file in which [init_db] has not run yet. *)
Definition blank_world : world := World (Database None None) [] (λ _, 0).

(** ** Vocabulary of the further properties *)




(** Whether the handler of a request runs: always, except for a
    POST /reviews whose body fails validation. *)
Definition reaches_handler `{FieldTypes} (req : request) : bool :=
  match req with
  | POST_reviews body =>
      match validate_Review body with Some _ => true | None => false end
  | _ => true
  end.



(** A read of the catalog by page or by id. *)
Definition is_catalog_read (req : request) : bool :=
  match req with
  | GET_movies _ _ | GET_movies_id _ => true
  | _ => false
  end.

(** The answer of the framework to an exception it does not know. *)
Definition internal_error : response :=
  Response 500 (Detail "Internal Server Error").

(** * Properties *)

(** ** Running a statement on a freshly opened connection *)

Lemma set_connection_last d cs e c0 c :
  set_connection (length cs) c (World d (cs ++ [c0]) e)
  = (Return (), World d (cs ++ [c]) e).
Proof.
  unfold set_connection; simpl.
  by rewrite insert_app_r_alt, Nat.sub_diag by lia.
Qed.

Section fresh_connection.
Context (d : database) (cs : list Connection) (e : nat → Z).
Context (t : option database).

Lemma the_connection_last :
  the_connection (length cs) (World d (cs ++ [Conn false t]) e)
  = (Return (Conn false t), World d (cs ++ [Conn false t]) e).
Proof.
  unfold the_connection; simpl.
  by rewrite list_lookup_middle.
Qed.

Lemma snapshot_last :
  snapshot (length cs) (World d (cs ++ [Conn false t]) e)
  = (Return (default d t), World d (cs ++ [Conn false t]) e).
Proof.
  unfold snapshot, mbind, M_bind.
  rewrite the_connection_last; simpl.
  by destruct t.
Qed.

Lemma commit_last :
  commit (length cs) (World d (cs ++ [Conn false t]) e)
  = (Return (), World (default d t) (cs ++ [Conn false None]) e).
Proof.
  unfold commit, mbind, M_bind.
  rewrite the_connection_last; simpl.
  destruct t as [d'|]; simpl; [|done].
  unfold set_disk; simpl.
  apply set_connection_last.
Qed.

Lemma rollback_last :
  rollback (length cs) (World d (cs ++ [Conn false t]) e)
  = (Return (), World d (cs ++ [Conn false None]) e).
Proof.
  unfold rollback, mbind, M_bind.
  rewrite the_connection_last; simpl.
  destruct t as [d'|]; simpl; [|done].
  apply set_connection_last.
Qed.

Lemma from_movies_last :
  from_movies (length cs) (World d (cs ++ [Conn false t]) e)
  = (match movies (default d t) with
     | Some rows => Return rows
     | None => Raise no_movies
     end, World d (cs ++ [Conn false t]) e).
Proof.
  unfold from_movies, mbind, M_bind.
  rewrite snapshot_last.
  by destruct (movies (default d t)).
Qed.

End fresh_connection.

Lemma execute_ddl_last d cs e f :
  execute_ddl (length cs) f (World d (cs ++ [Conn false None]) e)
  = (Return (), World (f d) (cs ++ [Conn false None]) e).
Proof.
  unfold execute_ddl, mbind, M_bind.
  by rewrite the_connection_last.
Qed.

Lemma execute_dml_last d cs e f :
  execute_dml (length cs) f (World d (cs ++ [Conn false None]) e)
  = match f d with
    | Return d' => (Return (), World d (cs ++ [Conn false (Some d')]) e)
    | Raise x => (Raise x, World d (cs ++ [Conn false None]) e)
    end.
Proof.
  unfold execute_dml, mbind, M_bind.
  rewrite snapshot_last, the_connection_last; simpl.
  destruct (f d); [apply set_connection_last | done].
Qed.

Lemma with_random_key_run {R} (rows : list R) d cs e :
  with_random_key rows (World d cs e)
  = (Return (keyed_with e rows), World d cs (λ n, e (length rows + n)%nat)).
Proof.
  revert e. induction rows as [|r rest IH]; intros e; [done|].
  simpl. unfold mbind, M_bind, random; simpl.
  by rewrite IH.
Qed.

Lemma keyed_with_rows {R} (e : nat → Z) (rows : list R) :
  snd <$> keyed_with e rows = rows.
Proof.
  revert e. induction rows as [|r rest IH]; intros e; [done|].
  simpl. by rewrite IH.
Qed.

(** ** What each function of models.py computes *)

Lemma init_db_run w :
  init_db w
  = (Return (),
     World (create_reviews (create_movies (disk w)))
           (connections w ++ [Conn false None]) (entropy w)).
Proof.
  destruct w as [d cs e]; simpl.
  unfold init_db, get_db_connection, connect, with_, mbind, M_bind; simpl.
  rewrite execute_ddl_last, execute_ddl_last.
  by rewrite (commit_last _ cs e None).
Qed.

Lemma get_movies_run page limit w :
  get_movies page limit w
  = (match movies (disk w) with
     | Some rows =>
         Return (Movie_of_row <$> limit_offset limit ((page - 1) * limit) rows)
     | None => Raise no_movies
     end, opened w).
Proof.
  destruct w as [d cs e]. unfold opened; simpl.
  unfold get_movies, get_db_connection, connect, with_, mbind, M_bind; simpl.
  unfold select_movies_limit_offset, mbind, M_bind.
  rewrite from_movies_last; simpl.
  destruct (movies d) as [rows|]; simpl.
  - by rewrite (commit_last d cs e None).
  - by rewrite (rollback_last d cs e None).
Qed.

Lemma get_movie_run i w :
  get_movie i w
  = (match movies (disk w) with
     | Some rows =>
         Return (Movie_of_row <$> head (filter (λ r, movie_id_of r = i) rows))
     | None => Raise no_movies
     end, opened w).
Proof.
  destruct w as [d cs e]. unfold opened; simpl.
  unfold get_movie, get_db_connection, connect, with_, mbind, M_bind; simpl.
  unfold select_movie_where_id, mbind, M_bind.
  rewrite from_movies_last; simpl.
  destruct (movies d) as [rows|]; simpl.
  - by rewrite (commit_last d cs e None).
  - by rewrite (rollback_last d cs e None).
Qed.

Lemma create_review_run review w :
  create_review review w
  = match reviews (disk w) with
    | Some rows =>
        (Return review,
         World (Database (movies (disk w))
                  (Some (rows ++ [row_of_review rows review])))
               (connections w ++ [Conn false None]) (entropy w))
    | None => (Raise no_reviews, opened w)
    end.
Proof.
  destruct w as [d cs e]. unfold opened; simpl.
  unfold create_review, get_db_connection, connect, with_, mbind, M_bind; simpl.
  rewrite execute_dml_last. unfold insert_review.
  destruct (reviews d) as [rows|]; simpl.
  - rewrite (commit_last d cs e (Some _)); simpl.
    by rewrite (commit_last _ cs e None).
  - by rewrite (rollback_last d cs e None).
Qed.

Lemma get_recommendations_run w :
  get_recommendations w
  = match movies (disk w) with
    | Some rows =>
        (Return (Movie_of_row <$>
                   limit_offset 5 0
                     (snd <$> merge_sort key_le (keyed_with (entropy w) rows))),
         World (disk w) (connections w ++ [Conn false None])
               (λ n, entropy w (length rows + n)%nat))
    | None => (Raise no_movies, opened w)
    end.
Proof.
  destruct w as [d cs e]. unfold opened; simpl.
  unfold get_recommendations, get_db_connection, connect, with_, mbind, M_bind;
    simpl.
  unfold select_movies_order_by_random_limit_5, mbind, M_bind.
  rewrite from_movies_last; simpl.
  destruct (movies d) as [rows|]; simpl.
  - rewrite with_random_key_run; simpl.
    by rewrite (commit_last d cs _ None).
  - by rewrite (rollback_last d cs e None).
Qed.

(** ** GET /movies *)

Lemma limit_offset_slice {R} (limit offset : Z) (rows : list R) :
  0 ≤ limit → 0 ≤ offset →
  limit_offset limit offset rows
  = take (Z.to_nat limit) (drop (Z.to_nat offset) rows).
Proof.
  intros Hl Ho. unfold limit_offset.
  destruct (Z.ltb_spec offset 0); [lia|].
  destruct (Z.ltb_spec limit 0); [lia|done].
Qed.








(** ** GET /movies/{id} *)

Lemma head_filter_primary_key (rows : list movie_row) row :
  NoDup (movie_id_of <$> rows) →
  row ∈ rows →
  head (filter (λ r, movie_id_of r = movie_id_of row) rows) = Some row.
Proof.
  induction rows as [|r rest IH]; intros Hnd Hin.
  - by apply elem_of_nil in Hin.
  - rewrite fmap_cons in Hnd. apply NoDup_cons in Hnd as [Hfresh Hnd].
    apply elem_of_cons in Hin as [->|Hin].
    + by rewrite filter_cons_True.
    + rewrite filter_cons_False; [by apply IH|].
      intros Heq. apply Hfresh. rewrite Heq.
      by apply list_elem_of_fmap_2.
Qed.


Lemma Movie_of_row_id row : id (Movie_of_row row) = movie_id_of row.
Proof. by destruct row as [[i t] g]. Qed.

Lemma read_movie_run i w :
  read_movie i w
  = (match movies (disk w) with
     | Some rows =>
         match head (filter (λ r, movie_id_of r = i) rows) with
         | Some row => Return (Movie_of_row row)
         | None => Raise (HTTPException 404 "Movie not found")
         end
     | None => Raise no_movies
     end, opened w).
Proof.
  unfold read_movie, mbind, M_bind. rewrite get_movie_run.
  destruct (movies (disk w)) as [rows|]; [|done].
  by destruct (head _).
Qed.



(** ** POST /reviews *)

Lemma required_member {A} (validator : json → option A) name body :
  required validator name body = member name body ≫= validator.
Proof. by destruct body. Qed.

Lemma validate_Review_Some `{FieldTypes} body review :
  validate_Review body = Some review ↔
  ∃ m r c,
    member "movie_id" body = Some m ∧ as_int m = Some (movie_id review)
    ∧ member "rating" body = Some r ∧ as_float r = Some (rating review)
    ∧ member "comment" body = Some c ∧ as_str c = Some (comment review).
Proof.
  unfold validate_Review. rewrite !required_member. split.
  - intros Hv.
    destruct (member "movie_id" body) as [m|]; [simpl in Hv|done].
    destruct (as_int m) as [mi|] eqn:Hm; [simpl in Hv|done].
    destruct (member "rating" body) as [r|]; [simpl in Hv|done].
    destruct (as_float r) as [rf|] eqn:Hr; [simpl in Hv|done].
    destruct (member "comment" body) as [c|]; [simpl in Hv|done].
    destruct (as_str c) as [cs|] eqn:Hc; [simpl in Hv|done].
    injection Hv as <-. by exists m, r, c.
  - intros (m & r & c & -> & Hm & -> & Hr & -> & Hc); simpl.
    rewrite Hm; simpl. rewrite Hr; simpl. rewrite Hc; simpl.
    by destruct review.
Qed.










(** ** GET /recommendations *)

Lemma random_order_permutation (e : nat → Z) (rows : list movie_row) :
  snd <$> merge_sort key_le (keyed_with e rows) ≡ₚ rows.
Proof. by rewrite merge_sort_Permutation, keyed_with_rows. Qed.

Lemma NoDup_Movie_of_row (rows : list movie_row) :
  NoDup (movie_id_of <$> rows) → NoDup (Movie_of_row <$> rows).
Proof.
  intros Hkey. apply (NoDup_fmap_1 id).
  rewrite <- list_fmap_compose.
  replace (id ∘ Movie_of_row <$> rows) with (movie_id_of <$> rows); [done|].
  apply list_fmap_ext. intros i r _. symmetry. apply Movie_of_row_id.
Qed.

(** C5. For every store state, GET /recommendations returns between 0 and
    5 movies, each of them a row of the movies table, and none of them
    twice. *)
Theorem recommendations_at_most_five_distinct `{FieldTypes} w rows :
  movies (disk w) = Some rows →
  NoDup (movie_id_of <$> rows) →
  ∃ ms,
    (recommendations w).1 = Return ms
    ∧ (serve GET_recommendations w).1 = Response 200 (MovieList ms)
    ∧ (0 ≤ length ms ≤ 5)%nat
    ∧ (∀ m, m ∈ ms → m ∈ catalog (disk w))
    ∧ NoDup ms.
Proof.
  intros Hrows Hkey.
  pose proof (get_recommendations_run w) as Hrun. rewrite Hrows in Hrun.
  rewrite limit_offset_slice in Hrun by lia. simpl drop in Hrun.
  set (shuffled := snd <$> merge_sort key_le (keyed_with (entropy w) rows))
    in Hrun.
  assert (Hperm : shuffled ≡ₚ rows) by apply random_order_permutation.
  set (picked := take (Z.to_nat 5) shuffled) in Hrun.
  assert (Hsub : picked `sublist_of` shuffled) by apply sublist_take.
  exists (Movie_of_row <$> picked). split_and!.
  - unfold recommendations. by rewrite Hrun.
  - simpl. unfold respond, recommendations. by rewrite Hrun.
  - lia.
  - rewrite length_fmap. subst picked. rewrite length_take. lia.
  - intros m Hm. unfold catalog. rewrite Hrows; simpl.
    apply list_elem_of_fmap in Hm as (row & -> & Hin).
    apply list_elem_of_fmap_2. rewrite <- Hperm.
    by eapply elem_of_sublist.
  - apply NoDup_Movie_of_row.
    apply (sublist_NoDup _ (movie_id_of <$> shuffled)).
    + by rewrite Hperm.
    + by apply fmap_sublist.
Qed.

Lemma recommendations_at_most_five_distinct_witness :
  (movies (disk sample_world) = Some three_movies
   ∧ NoDup (movie_id_of <$> three_movies))
  ∧ ∃ ms,
      (recommendations sample_world).1 = Return ms
      ∧ (@serve exact_types GET_recommendations sample_world).1
        = Response 200 (MovieList ms)
      ∧ (0 ≤ length ms ≤ 5)%nat
      ∧ (∀ m, m ∈ ms → m ∈ catalog (disk sample_world))
      ∧ NoDup ms.
Proof.
  assert (Hkey : NoDup (movie_id_of <$> three_movies)).
  { apply (bool_decide_unpack _). vm_compute. exact I. }
  split; [by split|].
  apply (@recommendations_at_most_five_distinct exact_types sample_world
           three_movies); [reflexivity | exact Hkey].
Defined.

(** ** Connections *)

(** C6 (every operation releases its connection before it returns, on
    every outcome).  The code does not: after [get_movies] has returned,
    and after [get_movie] has raised on a file without tables, the
    connection that the operation opened is still held. *)
Lemma operation_keeps_its_connection :
  held sample_world = []
  ∧ (get_movies 1 10 sample_world).1 = Return (catalog sample_disk)
  ∧ held (get_movies 1 10 sample_world).2 = [Conn false None]
  ∧ held blank_world = []
  ∧ (get_movie 1 blank_world).1 = Raise no_movies
  ∧ held (get_movie 1 blank_world).2 = [Conn false None].
Proof.
  rewrite get_movies_run, get_movie_run.
  split_and!; reflexivity.
Qed.

(** What the [with] block does give.  Each of the four operations opens
    one connection of its own and, on every outcome, ends that connection's
    transaction before it returns (commit on return, rollback on an
    exception).  The connection object is left in the table open and idle,
    and the connections that were there before are as they were. *)
Lemma operations_end_transaction_and_keep_connection w :
  (∀ page limit,
     connections (get_movies page limit w).2
     = connections w ++ [Conn false None])
  ∧ (∀ i,
     connections (get_movie i w).2 = connections w ++ [Conn false None])
  ∧ (∀ review,
     connections (create_review review w).2
     = connections w ++ [Conn false None])
  ∧ connections (get_recommendations w).2
    = connections w ++ [Conn false None].
Proof.
  split_and!.
  - intros page limit. by rewrite get_movies_run.
  - intros i. by rewrite get_movie_run.
  - intros review. rewrite create_review_run.
    by destruct (reviews (disk w)).
  - rewrite get_recommendations_run.
    by destruct (movies (disk w)).
Qed.

(** ** Schema creation *)

Lemma create_tables_ready d :
  ready (create_reviews (create_movies d)).
Proof.
  unfold ready, create_reviews, create_movies.
  destruct d as [[ms|] [rs|]]; simpl; split; eauto.
Qed.

Lemma create_tables_existing d :
  ready d → create_reviews (create_movies d) = d.
Proof.
  intros [[ms Hms] [rs Hrs]]. destruct d as [m r]; simpl in *.
  by subst.
Qed.

Lemma init_db_ready w : ready (disk (init_db w).2).
Proof. rewrite init_db_run. apply create_tables_ready. Qed.

(** C7. [init_db] is idempotent: run against a store in which the movies
    and reviews tables already exist, it returns without an error and
    leaves the contents of both tables as they were. *)
Theorem init_db_idempotent w ms rs :
  movies (disk w) = Some ms →
  reviews (disk w) = Some rs →
  (init_db w).1 = Return ()
  ∧ disk (init_db w).2 = disk w
  ∧ movies (disk (init_db w).2) = Some ms
  ∧ reviews (disk (init_db w).2) = Some rs.
Proof.
  intros Hms Hrs. rewrite init_db_run; simpl.
  rewrite create_tables_existing by (split; eauto).
  by split_and!.
Qed.

Lemma init_db_idempotent_witness :
  (movies (disk sample_world) = Some three_movies
   ∧ reviews (disk sample_world) = Some [])
  ∧ (init_db sample_world).1 = Return ()
  ∧ disk (init_db sample_world).2 = disk sample_world
  ∧ movies (disk (init_db sample_world).2) = Some three_movies
  ∧ reviews (disk (init_db sample_world).2) = Some [].
Proof.
  split; [by split|].
  apply (init_db_idempotent sample_world three_movies []); reflexivity.
Defined.

(** Starting the service twice: the second run of [init_db] changes
    nothing of what the first one left. *)
Lemma init_db_twice w :
  (init_db (init_db w).2).1 = Return ()
  ∧ disk (init_db (init_db w).2).2 = disk (init_db w).2.
Proof.
  rewrite (init_db_run (init_db w).2); simpl.
  by rewrite create_tables_existing by apply init_db_ready.
Qed.

(** ** What a request can change *)

Lemma respond_world {A} (render : A → content) (handler : M A) w :
  (respond render handler w).2 = (handler w).2.
Proof.
  unfold respond. by destruct (handler w) as [[a|[]] w'].
Qed.

Lemma serve_disk `{FieldTypes} req w :
  movies (disk (serve req w).2) = movies (disk w)
  ∧ (is_POST_reviews req = false → disk (serve req w).2 = disk w).
Proof.
  destruct req as [page limit|i|body|]; simpl.
  - rewrite respond_world. unfold read_movies. by rewrite get_movies_run.
  - by rewrite respond_world, read_movie_run.
  - split; [|done].
    destruct (validate_Review body) as [review|]; [|done].
    rewrite respond_world. unfold add_review. rewrite create_review_run.
    by destruct (reviews (disk w)).
  - rewrite respond_world. unfold recommendations.
    rewrite get_recommendations_run.
    by destruct (movies (disk w)) eqn:Hrows; simpl; rewrite ?Hrows.
Qed.

(** C8. No operation changes or deletes a movie: after any sequence of
    requests to the four endpoints the movies table is what it was before.
    Only the reviews table can change, and only through POST /reviews: a
    sequence without one leaves the whole file as it was. *)
Theorem movies_table_never_changes `{FieldTypes} reqs w :
  movies (disk (serve_all reqs w)) = movies (disk w)
  ∧ ((∀ req, req ∈ reqs → is_POST_reviews req = false) →
     disk (serve_all reqs w) = disk w).
Proof.
  revert w. induction reqs as [|req rest IH]; intros w; simpl; [done|].
  destruct (IH (serve req w).2) as [IHmovies IHdisk].
  destruct (serve_disk req w) as [Hmovies Hdisk].
  split.
  - by rewrite IHmovies.
  - intros Hget. rewrite IHdisk, Hdisk; [done| |].
    + apply Hget. by left.
    + intros r Hr. apply Hget. by right.
Qed.

Lemma movies_table_never_changes_witness :
  movies (disk (@serve_all exact_types
                  [POST_reviews sample_body; GET_recommendations;
                   GET_movies_id 9; GET_movies None (Some (-1))]
                  sample_world))
  = movies (disk sample_world)
  ∧ ((∀ req, req ∈ [GET_recommendations; GET_movies_id 9]
             → is_POST_reviews req = false)
     ∧ disk (@serve_all exact_types [GET_recommendations; GET_movies_id 9]
               sample_world)
       = disk sample_world).
Proof.
  assert (Hget : ∀ req, req ∈ [GET_recommendations; GET_movies_id 9]
                        → is_POST_reviews req = false).
  { intros req Hin. apply list_elem_of_In in Hin. simpl in Hin.
    destruct Hin as [<-|[<-|[]]]; reflexivity. }
  split.
  - apply (@movies_table_never_changes exact_types).
  - split; [exact Hget|].
    by apply (@movies_table_never_changes exact_types).
Defined.

(** ** The store stays well-formed *)





(** * Further properties of the code *)

(** ** Start-up *)

(** X1. Whatever the file holds, [init_db] returns, and afterwards both
    tables exist: a table that was there keeps its rows, a table that was
    missing is created empty. *)
Theorem init_db_creates_what_is_missing w :
  (init_db w).1 = Return ()
  ∧ movies (disk (init_db w).2) = Some (default [] (movies (disk w)))
  ∧ reviews (disk (init_db w).2) = Some (default [] (reviews (disk w))).
Proof.
  rewrite init_db_run; simpl.
  by destruct (disk w) as [[ms|] [rs|]].
Qed.




(** X3. No handler catches an exception of the store.  When the movies
    table is missing, the three GET routes answer 500; when the reviews
    table is missing, a valid POST /reviews answers 500.  In both cases the
    file is left as it was and the connection is rolled back. *)
Theorem missing_table_is_a_server_fault `{FieldTypes} w :
  (movies (disk w) = None →
   ∀ req, is_POST_reviews req = false →
     serve req w = (internal_error, opened w))
  ∧ (reviews (disk w) = None →
     ∀ body review, validate_Review body = Some review →
       serve (POST_reviews body) w = (internal_error, opened w)).
Proof.
  split.
  - intros Hms req Hget.
    destruct req as [page limit|i|body|]; simpl; [| |done|].
    + unfold respond, read_movies. by rewrite get_movies_run, Hms.
    + unfold respond. by rewrite read_movie_run, Hms.
    + unfold respond, recommendations.
      by rewrite get_recommendations_run, Hms.
  - intros Hrs body review Hvalid. simpl. rewrite Hvalid.
    unfold respond, add_review. by rewrite create_review_run, Hrs.
Qed.

Lemma missing_table_is_a_server_fault_witness :
  (movies (disk blank_world) = None
   ∧ @serve exact_types (GET_movies_id 1) blank_world
     = (internal_error, opened blank_world))
  ∧ (reviews (disk blank_world) = None
     ∧ @validate_Review exact_types sample_body = Some sample_review
     ∧ @serve exact_types (POST_reviews sample_body) blank_world
       = (internal_error, opened blank_world)).
Proof.
  destruct (@missing_table_is_a_server_fault exact_types blank_world)
    as [Hget Hpost].
  split.
  - split; [reflexivity|]. by apply Hget.
  - split; [reflexivity|].
    assert (Hvalid : @validate_Review exact_types sample_body
                     = Some sample_review) by (vm_compute; reflexivity).
    split; [exact Hvalid|]. by apply Hpost with sample_review.
Defined.

(** ** Pagination *)






(** ** Reading one movie *)



Lemma limit_offset_sublist {R} (limit offset : Z) (rows : list R) :
  limit_offset limit offset rows `sublist_of` rows.
Proof.
  unfold limit_offset.
  assert (Hrest : (if offset <? 0 then rows
                   else drop (Z.to_nat offset) rows) `sublist_of` rows).
  { destruct (offset <? 0); [done|apply sublist_drop]. }
  destruct (limit <? 0); [done|].
  etrans; [apply sublist_take|done].
Qed.

Lemma read_movie_of_catalog w rows row :
  movies (disk w) = Some rows →
  NoDup (movie_id_of <$> rows) →
  row ∈ rows →
  (read_movie (id (Movie_of_row row)) w).1 = Return (Movie_of_row row).
Proof.
  intros Hrows Hkey Hin.
  rewrite read_movie_run, Hrows, Movie_of_row_id; simpl.
  by rewrite (head_filter_primary_key rows row Hkey Hin).
Qed.

(** X7. Listing and fetching agree: under the primary key of the movies
    table, every movie that [get_movies] lists, for any page and limit,
    and every movie that [get_recommendations] picks, is what
    GET /movies/{id} returns for its id when asked next. *)
Theorem listed_movie_is_fetched_by_its_id w rows :
  movies (disk w) = Some rows →
  NoDup (movie_id_of <$> rows) →
  (∀ page limit ms m,
     (get_movies page limit w).1 = Return ms → m ∈ ms →
     (read_movie (id m) (get_movies page limit w).2).1 = Return m)
  ∧ (∀ ms m,
     (get_recommendations w).1 = Return ms → m ∈ ms →
     (read_movie (id m) (get_recommendations w).2).1 = Return m).
Proof.
  intros Hrows Hkey. split.
  - intros page limit ms m. rewrite get_movies_run, Hrows; simpl.
    intros [= <-] Hm.
    apply list_elem_of_fmap in Hm as (row & -> & Hin).
    apply (read_movie_of_catalog _ rows); [done|done|].
    eapply elem_of_sublist; [done|apply limit_offset_sublist].
  - intros ms m. rewrite get_recommendations_run, Hrows; simpl.
    intros [= <-] Hm.
    apply list_elem_of_fmap in Hm as (row & -> & Hin).
    apply (read_movie_of_catalog _ rows); [done|done|].
    rewrite <- (random_order_permutation (entropy w) rows).
    eapply elem_of_sublist; [done|apply limit_offset_sublist].
Qed.

Lemma listed_movie_is_fetched_by_its_id_witness :
  (movies (disk sample_world) = Some three_movies
   ∧ NoDup (movie_id_of <$> three_movies))
  ∧ (∀ page limit ms m,
       (get_movies page limit sample_world).1 = Return ms → m ∈ ms →
       (read_movie (id m) (get_movies page limit sample_world).2).1 = Return m)
  ∧ (∀ ms m,
       (get_recommendations sample_world).1 = Return ms → m ∈ ms →
       (read_movie (id m) (get_recommendations sample_world).2).1 = Return m).
Proof.
  assert (Hkey : NoDup (movie_id_of <$> three_movies)).
  { apply (bool_decide_unpack _). vm_compute. exact I. }
  split; [by split|].
  apply (listed_movie_is_fetched_by_its_id sample_world three_movies);
    [reflexivity | exact Hkey].
Defined.

(** ** Sequences of requests *)

Lemma serve_all_movies `{FieldTypes} reqs w :
  movies (disk (serve_all reqs w)) = movies (disk w).
Proof.
  revert w. induction reqs as [|req rest IH]; intros w; simpl; [done|].
  rewrite IH. by destruct (serve_disk req w).
Qed.

Lemma catalog_read_depends_on_movies `{FieldTypes} req w1 w2 :
  is_catalog_read req = true →
  movies (disk w1) = movies (disk w2) →
  (serve req w1).1 = (serve req w2).1.
Proof.
  intros Hread Hsame.
  destruct req as [page limit|i|body|]; try done; simpl.
  - unfold respond, read_movies. rewrite !get_movies_run, Hsame.
    by destruct (movies (disk w2)).
  - unfold respond. rewrite !read_movie_run, Hsame.
    destruct (movies (disk w2)); [|done]. by destruct (head _).
Qed.

(** X8. Reads of the catalog are repeatable: whatever requests are served
    in between, reviews posted included, a GET /movies or GET /movies/{id}
    gets the answer it would have got before them. *)
Theorem catalog_reads_are_repeatable `{FieldTypes} reqs req w :
  is_catalog_read req = true →
  (serve req (serve_all reqs w)).1 = (serve req w).1.
Proof.
  intros Hread. apply catalog_read_depends_on_movies; [done|].
  apply serve_all_movies.
Qed.

Lemma catalog_reads_are_repeatable_witness :
  is_catalog_read (GET_movies (Some 2) (Some 2)) = true
  ∧ (@serve exact_types (GET_movies (Some 2) (Some 2))
       (@serve_all exact_types
          [POST_reviews sample_body; GET_recommendations] sample_world)).1
    = (@serve exact_types (GET_movies (Some 2) (Some 2)) sample_world).1.
Proof.
  split; [reflexivity|].
  by apply (@catalog_reads_are_repeatable exact_types).
Defined.






(** ** Recommendations *)

(** X11. [get_recommendations] returns as many movies as there are, up to
    five: exactly min(5, number of rows); and when the table holds five
    movies or fewer, the result is the whole catalog in some order. *)
Theorem recommendations_fill_up_to_five w rows :
  movies (disk w) = Some rows →
  ∃ ms,
    (get_recommendations w).1 = Return ms
    ∧ length ms = (5 `min` length rows)%nat
    ∧ ((length rows ≤ 5)%nat → ms ≡ₚ catalog (disk w)).
Proof.
  intros Hrows. rewrite get_recommendations_run, Hrows.
  rewrite limit_offset_slice by lia.
  change (Z.to_nat 0) with 0%nat. rewrite drop_0.
  set (shuffled := snd <$> merge_sort key_le (keyed_with (entropy w) rows)).
  assert (Hperm : shuffled ≡ₚ rows) by apply random_order_permutation.
  eexists. split_and!; [done| |].
  - rewrite length_fmap, length_take, Hperm. lia.
  - intros Hfew. unfold catalog. rewrite Hrows; simpl.
    rewrite take_ge by (rewrite Hperm; lia).
    by rewrite Hperm.
Qed.

Lemma recommendations_fill_up_to_five_witness :
  movies (disk sample_world) = Some three_movies
  ∧ ∃ ms,
      (get_recommendations sample_world).1 = Return ms
      ∧ length ms = (5 `min` length three_movies)%nat
      ∧ ((length three_movies ≤ 5)%nat → ms ≡ₚ catalog (disk sample_world)).
Proof.
  split; [reflexivity|].
  by apply (recommendations_fill_up_to_five sample_world three_movies).
Defined.

(** ** Connections over a sequence of requests *)

Lemma serve_connections `{FieldTypes} req w :
  connections (serve req w).2
  = connections w ++ (if reaches_handler req then [Conn false None] else []).
Proof.
  destruct req as [page limit|i|body|]; simpl.
  - rewrite respond_world. unfold read_movies. by rewrite get_movies_run.
  - by rewrite respond_world, read_movie_run.
  - destruct (validate_Review body) as [review|];
      [|by simpl; rewrite app_nil_r].
    rewrite respond_world. unfold add_review. rewrite create_review_run.
    by destruct (reviews (disk w)).
  - rewrite respond_world. unfold recommendations.
    rewrite get_recommendations_run.
    by destruct (movies (disk w)).
Qed.

(** X12. No request leaves a transaction open, whatever its outcome: after
    any sequence of requests the connection table is the one from before,
    followed by one idle connection for each request whose handler ran.
    A request rejected by validation opens none, and the connections that
    existed before, with whatever transaction they hold, are not
    touched. *)
Theorem served_requests_leave_idle_connections `{FieldTypes} reqs w :
  connections (serve_all reqs w)
  = connections w
    ++ replicate (length (filter (λ req, reaches_handler req = true) reqs))
                 (Conn false None).
Proof.
  revert w. induction reqs as [|req rest IH]; intros w; simpl.
  - by rewrite app_nil_r.
  - rewrite IH, serve_connections, <- app_assoc. f_equal.
    destruct (reaches_handler req) eqn:Hreach.
    + by rewrite filter_cons_True.
    + by rewrite filter_cons_False by congruence.
Qed.

(** ** A catalog that starts empty *)



